(** * The Sphinx configuration of the Exploration Assistant demo project

    A verification development for
    [demoProject/ExpoAssistent/source/conf.py].  The file is a Python module
    that Sphinx executes once: two imports, one call that edits the module
    search path, and thirteen assignments of literals.  The literals are
    embedded as values of a small model of Python data, the module body as a
    state transformer over the interpreter state and the module namespace. *)

From Stdlib Require Import String Ascii List Bool.
From stdpp Require Import base option list strings gmap.

Open Scope string_scope.

(** ** Python values *)

Module Py.

(** The values the module builds: strings, booleans, lists, dictionaries
    with string keys, and module objects.  A dictionary keeps its items in
    insertion order. *)
#[warnings="-register-all"]
Inductive pyval : Type :=
| PStr (s : string)
| PBool (b : bool)
| PList (items : list pyval)
| PDict (entries : list (string * pyval))
| PModule (name : string).

(** [d[k]], [None] where Python raises [KeyError]. *)
Fixpoint dict_getitem (k : string) (d : list (string * pyval)) : option pyval :=
  match d with
  | [] => None
  | (k', v) :: rest => if String.eqb k k' then Some v else dict_getitem k rest
  end.

(** [d[k] = v]: an existing key keeps its position and takes the new value,
    a new key goes last. *)
Fixpoint dict_setitem (k : string) (v : pyval) (d : list (string * pyval))
  : list (string * pyval) :=
  match d with
  | [] => [(k, v)]
  | (k', v') :: rest =>
      if String.eqb k k' then (k', v) :: rest else (k', v') :: dict_setitem k v rest
  end.

(** A dictionary display [{k1: v1, ..., kn: vn}]: the items are stored from
    left to right. *)
Definition dict_display (kvs : list (string * pyval)) : pyval :=
  PDict (foldl (λ d kv, dict_setitem kv.1 kv.2 d) [] kvs).

(** The elements of a list value; anything else has none. *)
Definition py_items (v : pyval) : list pyval :=
  match v with
  | PList l => l
  | _ => []
  end.

(** [r[k]] for a value [r]: only a dictionary can be subscripted by a key. *)
Definition subscript (r : pyval) (k : string) : option pyval :=
  match r with
  | PDict d => dict_getitem k d
  | _ => None
  end.

Definition as_str (v : pyval) : option string :=
  match v with
  | PStr s => Some s
  | _ => None
  end.

Definition as_str_list (v : pyval) : option (list string) :=
  match v with
  | PList l => mapM as_str l
  | _ => None
  end.

Definition is_dict (v : pyval) : bool :=
  match v with
  | PDict _ => true
  | _ => false
  end.

(** The keys of a record, in order; a value that is no dictionary has none. *)
Definition keys (v : pyval) : list string :=
  match v with
  | PDict d => d.*1
  | _ => []
  end.

(** The string stored under key [k] of record [r]. *)
Definition field (k : string) (r : pyval) : option string :=
  subscript r k ≫= as_str.

(** The list of strings stored under key [k] of record [r]. *)
Definition field_list (k : string) (r : pyval) : option (list string) :=
  subscript r k ≫= as_str_list.

End Py.
Import Py.

(** ** The literals of conf.py *)

Definition project : pyval := PStr "Exploration Assistant".
Definition copyright : pyval := PStr "2025, Sam".
Definition author : pyval := PStr "Sam".
Definition release : pyval := PStr "0.1".

Definition extensions : pyval :=
  PList [PStr "sphinxcontrib.plantuml"; PStr "sphinx_needs"; PStr "sphinx.ext.autodoc"].

Definition templates_path : pyval := PList [PStr "_templates"].
Definition exclude_patterns : pyval := PList [].

Definition html_theme : pyval := PStr "sphinx_rtd_theme".
Definition html_static_path : pyval := PList [PStr "_static"].

Definition needs_types : pyval :=
  PList
    [ dict_display
        [ ("directive", PStr "req");
          ("title", PStr "Requirement");
          ("prefix", PStr "R_");
          ("color", PStr "#BFD8D2");
          ("style", PStr "node") ];
      dict_display
        [ ("directive", PStr "SR");
          ("title", PStr "Safety Requirement");
          ("prefix", PStr "SR_");
          ("color", PStr "#D19F3C");
          ("style", PStr "node") ];
      dict_display
        [ ("directive", PStr "DFA");
          ("title", PStr "DFA Requirement");
          ("prefix", PStr "DFA_");
          ("color", PStr "#A73E89");
          ("style", PStr "node") ];
      dict_display
        [ ("directive", PStr "arch");
          ("title", PStr "Architecture");
          ("prefix", PStr "A_");
          ("style", PStr "component");
          ("color", PStr "#BFD8D2") ] ].

Definition need_extra_links : pyval :=
  PList
    [ dict_display
        [ ("option", PStr "tutorial_required_by");
          ("incoming", PStr "requires");
          ("outgoing", PStr "required by");
          ("style", PStr "#00AA00") ] ].

Definition needs_extra_options : pyval :=
  PList
    [ PStr "image";
      dict_display
        [ ("name", PStr "asil");
          ("description", PStr "Safety Integrity Level");
          ("values",
            PList [PStr "A"; PStr "B"; PStr "C"; PStr "D";
                   PStr "A_D"; PStr "B_D"; PStr "C_D"]) ];
      dict_display
        [ ("name", PStr "sreqtype");
          ("description", PStr "Safety Requirement or DFA Requirement");
          ("values", PList [PStr "SR"; PStr "DFA"]) ] ].

Definition needs_build_json : pyval := PBool true.

(** ** Schemas of the three record lists *)

Definition has_fields (ks : list string) (r : pyval) : Prop :=
  ∀ k, k ∈ ks → is_Some (field k r).

(** The five keys of a need-type record. *)
Definition type_fields : list string :=
  ["directive"; "title"; "prefix"; "color"; "style"].

Definition directives : list (option string) :=
  field "directive" <$> py_items needs_types.

Definition prefixes : list (option string) :=
  field "prefix" <$> py_items needs_types.

(** The four fields of an extra-link record, under the keys the file gives
    them.  The file's comments say what each key holds: ["incoming"] is the
    "text to describe incoming links", ["outgoing"] the "text to describe
    outgoing links", and ["style"] the "color for the link in diagrams". *)
Definition link_option (r : pyval) : option string := field "option" r.
Definition link_incoming_label (r : pyval) : option string := field "incoming" r.
Definition link_outgoing_label (r : pyval) : option string := field "outgoing" r.
Definition link_color (r : pyval) : option string := field "style" r.

Definition link_record (r : pyval) : Prop :=
  is_Some (link_option r) ∧ is_Some (link_incoming_label r) ∧
  is_Some (link_outgoing_label r) ∧ is_Some (link_color r).

(** The keys an extra-option record may have. *)
Definition option_fields : list string := ["name"; "description"; "values"].

(** A record of shape {name, description?, values?}: a dictionary with a
    name and no key besides the three. *)
Definition option_record (e : pyval) : Prop :=
  is_dict e = true ∧ is_Some (field "name" e) ∧ keys e ⊆ option_fields.

(** An entry that is only the name of the option. *)
Definition bare_option (e : pyval) : Prop := is_Some (as_str e).

(** The record of [needs_extra_options] named [name], and its values. *)
Definition find_option (name : string) : option pyval :=
  snd <$> list_find (λ e, field "name" e = Some name) (py_items needs_extra_options).

Definition option_values (name : string) : option (list string) :=
  find_option name ≫= field_list "values".

(** The values of an enumeration that are one character long. *)
Definition base_codes (vs : list string) : list string :=
  filter (λ s, String.length s = 1) vs.

Definition is_letter (c : ascii) : bool :=
  let n := nat_of_ascii c in
  (Nat.leb 65 n && Nat.leb n 90) || (Nat.leb 97 n && Nat.leb n 122).

Definition single_letter (s : string) : Prop :=
  ∃ c, s = String c "" ∧ is_letter c = true.

(** The directive keywords of the need types titled Safety Requirement and
    DFA Requirement. *)
Definition safety_directives : list string :=
  omap (field "directive")
    (filter (λ r, field "title" r = Some "Safety Requirement"
                  ∨ field "title" r = Some "DFA Requirement")
       (py_items needs_types)).

(** ** Strings *)

(** [s.endswith(suf)]. *)
Fixpoint endswith (s suf : string) : bool :=
  String.eqb s suf ||
  match s with
  | EmptyString => false
  | String _ rest => endswith rest suf
  end.

Definition is_hex_digit (c : ascii) : bool :=
  let n := nat_of_ascii c in
  (Nat.leb 48 n && Nat.leb n 57) || (Nat.leb 65 n && Nat.leb n 70)
  || (Nat.leb 97 n && Nat.leb n 102).

(** A colour written as a number sign and six hexadecimal digits. *)
Definition is_hex_color (s : string) : bool :=
  match s with
  | String "#" digits =>
      Nat.eqb (String.length digits) 6
      && forallb is_hex_digit (list_ascii_of_string digits)
  | _ => false
  end.

(** ** Paths

    [os.path.abspath] of the Python library on a POSIX system, where
    [os.path] is [posixpath]. *)

Module posixpath.

(** [s.split('/')]. *)
Fixpoint split_sep (s : string) : list string :=
  match s with
  | EmptyString => [""]
  | String c rest =>
      if Ascii.eqb c "/" then "" :: split_sep rest
      else match split_sep rest with
           | [] => [String c ""]
           | h :: t => String c h :: t
           end
  end.

Definition isabs (s : string) : bool := String.prefix "/" s.

Definition join (a b : string) : string :=
  if isabs b then b
  else if String.eqb a "" || endswith a "/" then a ++ b
  else a ++ "/" ++ b.

(** One turn of the loop of [normpath]; [new_comps] is kept with its last
    element first. *)
Definition normpath_step (initial_slashes : nat) (new_comps : list string)
    (comp : string) : list string :=
  if String.eqb comp "" || String.eqb comp "." then new_comps
  else if negb (String.eqb comp "..")
          || (Nat.eqb initial_slashes 0 && bool_decide (new_comps = []))
          || bool_decide (head new_comps = Some "..")
  then comp :: new_comps
  else tail new_comps.

Definition normpath (path : string) : string :=
  if String.eqb path "" then "."
  else
    let initial_slashes :=
      if String.prefix "/" path
      then if String.prefix "//" path && negb (String.prefix "///" path)
           then 2 else 1
      else 0 in
    let new_comps := foldl (normpath_step initial_slashes) [] (split_sep path) in
    let path := String.concat "/" (rev new_comps) in
    let path := String.concat "" (replicate initial_slashes "/") ++ path in
    if String.eqb path "" then "." else path.

Definition abspath (cwd path : string) : string :=
  normpath (if isabs path then path else join cwd path).

End posixpath.

(** ** Executing the module *)

(** The state of the interpreter that the module can reach: the working
    directory, the module search path [sys.path] and the names of the loaded
    modules [sys.modules]. *)
Record interp : Type := Interp {
  os_getcwd : string;
  sys_path : list string;
  sys_modules : gset string
}.

(** A run has the interpreter state and the namespace of the module. *)
Record frame : Type := Frame {
  rt : interp;
  ns : gmap string pyval
}.

Definition stmt : Type := frame → frame.

Definition seq (s1 s2 : stmt) : stmt := λ f, s2 (s1 f).

Declare Scope stmt_scope.
Delimit Scope stmt_scope with stmt.
Bind Scope stmt_scope with stmt.

Notation "s1 ;; s2" := (seq s1 s2)
  (at level 100, s2 at level 200, right associativity) : stmt_scope.

(** [import name]: the module is loaded if it was not, and bound to its
    name. *)
Definition import_ (name : string) : stmt := λ f,
  {| rt := {| os_getcwd := os_getcwd (rt f);
              sys_path := sys_path (rt f);
              sys_modules := {[name]} ∪ sys_modules (rt f) |};
     ns := <[name := PModule name]> (ns f) |}.

(** [l.insert(i, x)] for an index that is not negative: an index past the
    end inserts at the end. *)
Definition list_insert_at {A} (i : nat) (x : A) (l : list A) : list A :=
  take i l ++ x :: drop i l.

(** [sys.path.insert(i, arg)], the argument evaluated in the interpreter. *)
Definition sys_path_insert (i : nat) (arg : interp → string) : stmt := λ f,
  {| rt := {| os_getcwd := os_getcwd (rt f);
              sys_path := list_insert_at i (arg (rt f)) (sys_path (rt f));
              sys_modules := sys_modules (rt f) |};
     ns := ns f |}.

(** [os.path.abspath(p)]. *)
Definition os_path_abspath (p : string) : interp → string :=
  λ w, posixpath.abspath (os_getcwd w) p.

(** [x = v] at module level. *)
Definition assign (x : string) (v : pyval) : stmt := λ f,
  {| rt := rt f; ns := <[x := v]> (ns f) |}.

Notation "x ::= v" := (assign x v) (at level 60, no associativity) : stmt_scope.

(** The body of conf.py, statement by statement. *)
Definition conf_py : stmt :=
  (import_ "os" ;;
  import_ "sys" ;;
  sys_path_insert 0 (os_path_abspath "..") ;;
  "project" ::= project ;;
  "copyright" ::= copyright ;;
  "author" ::= author ;;
  "release" ::= release ;;
  "extensions" ::= extensions ;;
  "templates_path" ::= templates_path ;;
  "exclude_patterns" ::= exclude_patterns ;;
  "html_theme" ::= html_theme ;;
  "html_static_path" ::= html_static_path ;;
  "needs_types" ::= needs_types ;;
  "need_extra_links" ::= need_extra_links ;;
  "needs_extra_options" ::= needs_extra_options ;;
  "needs_build_json" ::= needs_build_json)%stmt.

(** Loading the file: the body runs in interpreter state [w] on the
    namespace [g] that the loader prepared. *)
Definition load (w : interp) (g : gmap string pyval) : frame :=
  conf_py {| rt := w; ns := g |}.

(** The configuration names of the file and the literals they are given. *)
Definition conf_bindings : list (string * pyval) :=
  [ ("project", project); ("copyright", copyright); ("author", author);
    ("release", release); ("extensions", extensions);
    ("templates_path", templates_path); ("exclude_patterns", exclude_patterns);
    ("html_theme", html_theme); ("html_static_path", html_static_path);
    ("needs_types", needs_types); ("need_extra_links", need_extra_links);
    ("needs_extra_options", needs_extra_options);
    ("needs_build_json", needs_build_json) ].

(** A statement whose namespace does not depend on the interpreter state. *)
Definition ns_determined (s : stmt) : Prop :=
  ∀ f1 f2, ns f1 = ns f2 → ns (s f1) = ns (s f2).

(** A statement that leaves the interpreter state as it found it. *)
Definition preserves_interp (s : stmt) : Prop :=
  ∀ f, rt (s f) = rt f.

(** An interpreter started in the source directory of the project. *)
Definition boot : frame :=
  {| rt := {| os_getcwd := "/home/sam/fsGaze/demoProject/ExpoAssistent/source";
              sys_path := ["/usr/lib/python3.12"];
              sys_modules := {["sys"; "os"]} |};
     ns := ∅ |}.

(** ** Reloading and reordering *)

(** The assignments of a list of bindings, in the order of the list. *)
Definition assign_all (bs : list (string * pyval)) : stmt := λ f,
  foldl (λ f b, assign b.1 b.2 f) f bs.

(** The body of conf.py with its assignments replaced by those of [bs]. *)
Definition conf_py_with (bs : list (string * pyval)) : stmt :=
  (import_ "os" ;;
   import_ "sys" ;;
   sys_path_insert 0 (os_path_abspath "..") ;;
   assign_all bs)%stmt.

(** [n] loads of the file, one after the other, in one interpreter. *)
Definition reload (n : nat) (f : frame) : frame := Nat.iter n conf_py f.

(** ** Directories *)

(** A string without the separator. *)
Fixpoint no_sep (s : string) : bool :=
  match s with
  | EmptyString => true
  | String c rest => negb (Ascii.eqb c "/") && no_sep rest
  end.

(** The name of a directory entry: not empty, not one of the two dot
    entries, no separator in it. *)
Definition plain_comp (c : string) : bool :=
  no_sep c && negb (String.eqb c "") && negb (String.eqb c ".")
  && negb (String.eqb c "..").

(** The absolute path with the components [comps], the root for none. *)
Definition abs_path_of (comps : list string) : string :=
  "/" ++ String.concat "/" comps.

(** ** Names of the custom fields *)

(** The name an entry of [needs_extra_options] gives its option: the entry
    itself when it is a string, its name field when it is a record. *)
Definition option_name (e : pyval) : option string :=
  match e with
  | PStr s => Some s
  | _ => field "name" e
  end.

(** The names that the options and the links add to a need. *)
Definition custom_field_names : list (option string) :=
  (option_name <$> py_items needs_extra_options)
  ++ (link_option <$> py_items need_extra_links).

(** ** Generic facts *)

(** Two different positions of a list whose image under [f] has no
    duplicates carry different images. *)
Lemma NoDup_fmap_lookup_ne {A B} (f : A → B) (l : list A) i j x y :
  NoDup (f <$> l) → l !! i = Some x → l !! j = Some y → i ≠ j → f x ≠ f y.
Proof.
  intros Hnd Hi Hj Hij Heq. apply Hij.
  apply (proj1 (NoDup_alt (f <$> l)) Hnd i j (f x)).
  - by rewrite list_lookup_fmap, Hi.
  - by rewrite list_lookup_fmap, Hj, Heq.
Qed.

(** A list value read as a list of strings is the list of those strings. *)
Lemma as_str_list_Some (v : pyval) (ss : list string) :
  as_str_list v = Some ss → v = PList (PStr <$> ss).
Proof.
  destruct v as [| |l| |]; simpl; try discriminate.
  intros H%mapM_Some_1. f_equal.
  induction H as [|x s l ss Hx _ IH]; [done|].
  destruct x; simpl in Hx; try discriminate.
  injection Hx as ->. by rewrite IH.
Qed.

(** [endswith] finds exactly the strings that are something followed by the
    suffix. *)
Lemma endswith_spec (s suf : string) :
  endswith s suf = true ↔ ∃ p, s = p ++ suf.
Proof.
  induction s as [|a s IH]; cbn [endswith].
  - rewrite orb_false_r, String.eqb_eq. split.
    + intros <-. by exists "".
    + intros [[|b p] Hp]; simpl in Hp; [done | discriminate].
  - rewrite orb_true_iff, String.eqb_eq, IH. split.
    + intros [<- | [p ->]]; [by exists "" | by exists (String a p)].
    + intros [[|b p] Hp]; simpl in Hp; [by left | right].
      injection Hp as _ ->. by exists p.
Qed.

(** A hexadecimal colour is a number sign and six more characters. *)
Lemma is_hex_color_length (s : string) :
  is_hex_color s = true → String.length s = 7 ∧ String.prefix "#" s = true.
Proof.
  destruct s as [|c digits]; simpl; [discriminate|].
  destruct c as [[] [] [] [] [] [] [] []]; simpl; try discriminate.
  intros [Hlen _]%andb_true_iff. apply Nat.eqb_eq in Hlen.
  split; [by rewrite Hlen | by destruct digits].
Qed.

(** Inserting at the front of a list puts the element before the others. *)
Lemma list_insert_at_0 {A} (x : A) (l : list A) : list_insert_at 0 x l = x :: l.
Proof. unfold list_insert_at. by rewrite take_0, drop_0. Qed.

Lemma list_insert_at_length {A} (i : nat) (x : A) (l : list A) :
  length (list_insert_at i x l) = S (length l).
Proof.
  unfold list_insert_at.
  rewrite length_app, length_cons, length_take, length_drop. lia.
Qed.

(** The path model on the inputs that matter here: the parent of a
    directory, the root, which is its own parent, and a path with a
    trailing separator. *)
Example abspath_parent :
  posixpath.abspath "/home/sam/fsGaze/demoProject/ExpoAssistent/source" ".."
  = "/home/sam/fsGaze/demoProject/ExpoAssistent".
Proof. reflexivity. Qed.

Example abspath_root : posixpath.abspath "/" ".." = "/".
Proof. reflexivity. Qed.

Example abspath_trailing_sep : posixpath.abspath "/srv/docs/" ".." = "/srv".
Proof. reflexivity. Qed.

Example normpath_dots : posixpath.normpath "//a/./b/../c//" = "//a/c".
Proof. reflexivity. Qed.

(** ** The statements of the module *)

Create HintDb stmt.

Lemma ns_determined_seq (s1 s2 : stmt) :
  ns_determined s1 → ns_determined s2 → ns_determined (s1 ;; s2).
Proof. intros H1 H2 f1 f2 Hf. apply H2, H1, Hf. Qed.

Lemma ns_determined_import (name : string) : ns_determined (import_ name).
Proof. intros f1 f2 Hf. simpl. by rewrite Hf. Qed.

Lemma ns_determined_sys_path_insert (i : nat) (arg : interp → string) :
  ns_determined (sys_path_insert i arg).
Proof. intros f1 f2 Hf. exact Hf. Qed.

Lemma ns_determined_assign (x : string) (v : pyval) : ns_determined (x ::= v).
Proof. intros f1 f2 Hf. simpl. by rewrite Hf. Qed.

#[export] Hint Resolve ns_determined_seq ns_determined_import
  ns_determined_sys_path_insert ns_determined_assign : stmt.

Lemma conf_py_ns_determined : ns_determined conf_py.
Proof. unfold conf_py. auto 20 with stmt. Qed.

Lemma preserves_interp_assign (x : string) (v : pyval) :
  preserves_interp (x ::= v).
Proof. by intros f. Qed.

Lemma preserves_interp_seq (s1 s2 : stmt) :
  preserves_interp s1 → preserves_interp s2 → preserves_interp (s1 ;; s2).
Proof. intros H1 H2 f. unfold seq. by rewrite H2, H1. Qed.

(** What a statement other than an assignment does to the interpreter. *)
Lemma import_modules (name : string) (f : frame) :
  sys_modules (rt (import_ name f)) = {[name]} ∪ sys_modules (rt f)
  ∧ sys_path (rt (import_ name f)) = sys_path (rt f)
  ∧ os_getcwd (rt (import_ name f)) = os_getcwd (rt f).
Proof. done. Qed.

Lemma sys_path_insert_path (i : nat) (arg : interp → string) (f : frame) :
  sys_path (rt (sys_path_insert i arg f))
    = list_insert_at i (arg (rt f)) (sys_path (rt f))
  ∧ sys_modules (rt (sys_path_insert i arg f)) = sys_modules (rt f)
  ∧ os_getcwd (rt (sys_path_insert i arg f)) = os_getcwd (rt f).
Proof. done. Qed.

(** The interpreter state after the whole body. *)
Lemma conf_py_rt (f : frame) :
  rt (conf_py f)
  = {| os_getcwd := os_getcwd (rt f);
       sys_path := posixpath.abspath (os_getcwd (rt f)) ".." :: sys_path (rt f);
       sys_modules := {["sys"]} ∪ ({["os"]} ∪ sys_modules (rt f)) |}.
Proof. reflexivity. Qed.

(** The namespace after the whole body: the loader's names, then the two
    modules, then the thirteen configuration names. *)
Lemma conf_py_ns (f : frame) :
  ns (conf_py f)
  = foldl (λ g b, <[b.1 := b.2]> g)
      (<["sys" := PModule "sys"]> (<["os" := PModule "os"]> (ns f)))
      conf_bindings.
Proof. reflexivity. Qed.

(** A lookup after a run of assignments finds the last value assigned to the
    name, or what was there before. *)
Lemma lookup_foldl_insert (bs : list (string * pyval)) (g : gmap string pyval)
    (x : string) :
  foldl (λ g b, <[b.1 := b.2]> g) g bs !! x
  = match list_find (λ b, b.1 = x) (reverse bs) with
    | Some (_, b) => Some b.2
    | None => g !! x
    end.
Proof.
  revert g. induction bs as [|[y v] bs IH] using rev_ind; intros g; [done|].
  rewrite foldl_app, reverse_snoc. simpl.
  destruct (decide (y = x)) as [->|Hne].
  - by rewrite lookup_insert_eq.
  - rewrite lookup_insert_ne by done. rewrite IH.
    by destruct (list_find _ (reverse bs)) as [[i b]|].
Qed.

Lemma load_binds (w : interp) (g : gmap string pyval) :
  Forall (λ b, ns (load w g) !! b.1 = Some b.2) conf_bindings.
Proof.
  unfold load. rewrite conf_py_ns.
  apply Forall_forall. intros [x v] Hx. rewrite lookup_foldl_insert.
  unfold conf_bindings in Hx.
  repeat (apply elem_of_cons in Hx as [[= -> ->] | Hx]; [reflexivity |]).
  by apply elem_of_nil in Hx.
Qed.

(** ** The record lists *)

Lemma directives_NoDup : NoDup directives.
Proof. apply (bool_decide_unpack _). by vm_compute. Qed.

Lemma prefixes_NoDup : NoDup prefixes.
Proof. apply (bool_decide_unpack _). by vm_compute. Qed.

Lemma needs_types_fields : Forall (has_fields type_fields) (py_items needs_types).
Proof.
  unfold has_fields, type_fields.
  repeat constructor; intros k Hk;
    repeat (apply elem_of_cons in Hk as [-> | Hk]; [by eexists |]);
    by apply elem_of_nil in Hk.
Qed.

(** The bare string that opens [needs_extra_options] is no record. *)
Lemma bare_option_not_record (s : string) : ¬ option_record (PStr s).
Proof. intros [Hdict _]. discriminate Hdict. Qed.

(** ** Properties of the configuration *)

(** C1: every record of [needs_types] has the five fields directive, title,
    prefix, color and style, and two records at different positions differ
    in their directive keyword and differ in their prefix. *)
Theorem needs_types_schema (i j : nat) (ri rj : pyval) :
  py_items needs_types !! i = Some ri →
  py_items needs_types !! j = Some rj →
  has_fields type_fields ri ∧
  (i ≠ j →
     field "directive" ri ≠ field "directive" rj ∧
     field "prefix" ri ≠ field "prefix" rj).
Proof.
  intros Hi Hj. split.
  - exact (proj1 (Forall_lookup _ _) needs_types_fields i ri Hi).
  - intros Hij. split.
    + exact (NoDup_fmap_lookup_ne _ _ i j ri rj directives_NoDup Hi Hj Hij).
    + exact (NoDup_fmap_lookup_ne _ _ i j ri rj prefixes_NoDup Hi Hj Hij).
Qed.

(** The requirement record and the architecture record: all five fields,
    and they differ in directive ("req", "arch") and in prefix ("R_",
    "A_"), although they share their colour. *)
Lemma needs_types_schema_witness :
  ∃ ri rj,
    py_items needs_types !! 0 = Some ri ∧
    py_items needs_types !! 3 = Some rj ∧
    has_fields type_fields ri ∧
    field "directive" ri ≠ field "directive" rj ∧
    field "prefix" ri ≠ field "prefix" rj ∧
    field "color" ri = field "color" rj.
Proof.
  eexists _, _.
  split; [reflexivity|]. split; [reflexivity|].
  destruct (needs_types_schema 0 3 _ _ eq_refl eq_refl) as [Hfields Hdiff].
  split; [exact Hfields|].
  destruct (Hdiff ltac:(lia)) as [Hd Hp].
  split; [exact Hd|]. split; [exact Hp | reflexivity].
Defined.

(** C2: every record of [need_extra_links] has the four fields option,
    incoming label, outgoing label and colour (stored under the keys
    "option", "incoming", "outgoing" and "style", and under no others), and
    no two records share an option name. *)
Theorem need_extra_links_schema :
  Forall (λ r, link_record r ∧ keys r = ["option"; "incoming"; "outgoing"; "style"])
    (py_items need_extra_links)
  ∧ NoDup (link_option <$> py_items need_extra_links).
Proof.
  split.
  - repeat constructor; by eexists.
  - simpl. apply NoDup_singleton.
Qed.

(** The claim of C3 fails on the first entry: it is the string "image", not
    a record, and has no name field. *)
Lemma needs_extra_options_bare_entry :
  py_items needs_extra_options !! 0 = Some (PStr "image")
  ∧ is_dict (PStr "image") = false
  ∧ field "name" (PStr "image") = None
  ∧ ¬ Forall option_record (py_items needs_extra_options).
Proof.
  repeat split.
  intros H. apply Forall_cons_1 in H as [H _].
  by apply bare_option_not_record in H.
Qed.

(** C3, amended: every entry of [needs_extra_options] is either a bare
    string, the name of the option, or a record of shape
    {name, description?, values?}. *)
Theorem needs_extra_options_shape :
  Forall (λ e, bare_option e ∨ option_record e) (py_items needs_extra_options).
Proof.
  repeat apply Forall_cons_2; [left | right | right | apply Forall_nil_2].
  - by eexists.
  - split; [done|]. split; [by eexists|]. simpl. set_solver.
  - split; [done|]. split; [by eexists|]. simpl. set_solver.
Qed.

(** C4: an entry of [needs_extra_options] that has a values field has, under
    it, a list of strings that is not empty and has no duplicates. *)
Theorem option_values_nonempty_NoDup (e v : pyval) :
  e ∈ py_items needs_extra_options →
  subscript e "values" = Some v →
  ∃ vs, as_str_list v = Some vs ∧ vs ≠ [] ∧ NoDup vs.
Proof.
  intros He Hv. unfold needs_extra_options in He. simpl in He.
  inversion He as [|? ? ? He1]; subst; [discriminate Hv|].
  inversion He1 as [|? ? ? He2]; subst.
  { injection Hv as <-. eexists. split; [reflexivity|].
    split; [discriminate|]. apply (bool_decide_unpack _). by vm_compute. }
  inversion He2 as [|? ? ? He3]; subst.
  { injection Hv as <-. eexists. split; [reflexivity|].
    split; [discriminate|]. apply (bool_decide_unpack _). by vm_compute. }
  inversion He3.
Qed.

(** The safety-level option: its seven values. *)
Lemma option_values_nonempty_NoDup_witness :
  ∃ e v,
    py_items needs_extra_options !! 1 = Some e ∧
    subscript e "values" = Some v ∧
    ∃ vs, as_str_list v = Some vs ∧ vs ≠ [] ∧ NoDup vs.
Proof.
  eexists _, _.
  split; [reflexivity|]. split; [reflexivity|].
  apply (option_values_nonempty_NoDup
           (default (PBool false) (py_items needs_extra_options !! 1))).
  - by apply (list_elem_of_lookup_2 _ 1).
  - reflexivity.
Defined.

(** C5: the values of the safety-level option "asil" are the four letters
    A, B, C, D and letters of these four followed by "_D"; the
    classification option "sreqtype" has exactly two values, and they
    differ. *)
Theorem option_enumerations :
  (∃ vs, option_values "asil" = Some vs
         ∧ base_codes vs = ["A"; "B"; "C"; "D"]
         ∧ Forall single_letter (base_codes vs)
         ∧ Forall (λ v, ∃ c, c ∈ base_codes vs ∧ (v = c ∨ v = c ++ "_D")) vs)
  ∧ (∃ t1 t2, option_values "sreqtype" = Some [t1; t2] ∧ t1 ≠ t2).
Proof.
  split.
  - eexists. split; [reflexivity|]. split; [reflexivity|]. split.
    + repeat constructor; by eexists.
    + change (base_codes _) with ["A"; "B"; "C"; "D"].
      repeat apply Forall_cons_2; try apply Forall_nil_2.
      * exists "A". split; [set_solver | by left].
      * exists "B". split; [set_solver | by left].
      * exists "C". split; [set_solver | by left].
      * exists "D". split; [set_solver | by left].
      * exists "A". split; [set_solver | by right].
      * exists "B". split; [set_solver | by right].
      * exists "C". split; [set_solver | by right].
  - exists "SR", "DFA". split; [reflexivity | discriminate].
Qed.

(** C6: the entries of [extensions] are strings, none of them empty, and no
    string occurs twice. *)
Theorem extensions_identifiers :
  ∃ ids, extensions = PList (PStr <$> ids)
         ∧ Forall (λ s, s ≠ "") ids
         ∧ NoDup ids.
Proof.
  destruct (as_str_list extensions) as [ids|] eqn:Hids; [|discriminate Hids].
  exists ids. split; [by apply as_str_list_Some|].
  injection Hids as <-. split.
  - repeat constructor; discriminate.
  - apply (bool_decide_unpack _). by vm_compute.
Qed.

(** C7: two loads of the file, from any two interpreter states and the same
    prepared namespace, end with the same namespace; in both, each
    configuration name is bound to its literal. *)
Theorem load_deterministic (w1 w2 : interp) (g : gmap string pyval) :
  ns (load w1 g) = ns (load w2 g)
  ∧ Forall (λ b, ns (load w1 g) !! b.1 = Some b.2
                 ∧ ns (load w2 g) !! b.1 = Some b.2) conf_bindings.
Proof.
  split.
  - by apply conf_py_ns_determined.
  - apply Forall_and. split; apply load_binds.
Qed.

(** The claim of C8 fails: started in the source directory, the run puts the
    project directory in front of the module search path. *)
Lemma conf_py_mutates_sys_path :
  sys_path (rt boot) = ["/usr/lib/python3.12"]
  ∧ sys_path (rt (conf_py boot))
    = ["/home/sam/fsGaze/demoProject/ExpoAssistent"; "/usr/lib/python3.12"]
  ∧ ¬ preserves_interp conf_py.
Proof.
  split; [reflexivity|]. split.
  - rewrite conf_py_rt. by vm_compute.
  - intros H. specialize (H boot). rewrite conf_py_rt in H.
    apply (f_equal (λ w, length (sys_path w))) in H. discriminate H.
Qed.

(** C8, amended: besides binding names in its own namespace ([os], [sys] and
    the thirteen configuration names; every other name stays as it was), the
    run has these effects on the interpreter and no others: the absolute
    path of the parent of the working directory is inserted at the front of
    [sys.path], whose former entries follow in their order, and [os] and
    [sys] are among the loaded modules.  The working directory is not
    changed. *)
Theorem conf_py_frame (f : frame) :
  (∀ x, x ∉ ("os" :: "sys" :: conf_bindings.*1) →
        ns (conf_py f) !! x = ns f !! x)
  ∧ sys_path (rt (conf_py f))
    = posixpath.abspath (os_getcwd (rt f)) ".." :: sys_path (rt f)
  ∧ sys_modules (rt (conf_py f)) = {["os"; "sys"]} ∪ sys_modules (rt f)
  ∧ os_getcwd (rt (conf_py f)) = os_getcwd (rt f).
Proof.
  split; [|rewrite conf_py_rt; simpl; split; [done|split; [|done]]].
  2: { apply leibniz_equiv. intros y. rewrite !elem_of_union, !elem_of_singleton. tauto. }
  intros x Hx. rewrite conf_py_ns, lookup_foldl_insert.
  apply not_elem_of_cons in Hx as [Hos Hx].
  apply not_elem_of_cons in Hx as [Hsys Hx].
  destruct (list_find _ _) as [[i [y v]]|] eqn:Hfind.
  - apply list_find_Some in Hfind as (Hi & Hy & _). simpl in Hy. subst y.
    exfalso. apply Hx.
    apply list_elem_of_lookup_2, elem_of_reverse in Hi.
    apply list_elem_of_fmap. by exists (x, v).
  - by rewrite !lookup_insert_ne.
Qed.

(** The name [tags], which the loader prepares, keeps its value, and the
    search path of [boot] gets the project directory in front. *)
Lemma conf_py_frame_witness :
  ("tags" ∉ "os" :: "sys" :: conf_bindings.*1)
  ∧ ns (conf_py boot) !! "tags" = ns boot !! "tags"
  ∧ sys_path (rt (conf_py boot))
    = posixpath.abspath (os_getcwd (rt boot)) ".." :: sys_path (rt boot).
Proof.
  assert (Hx : "tags" ∉ ("os" :: "sys" :: conf_bindings.*1)).
  { apply (bool_decide_unpack _). by vm_compute. }
  split; [exact Hx|].
  destruct (conf_py_frame boot) as (Hns & Hpath & _).
  split; [exact (Hns "tags" Hx) | exact Hpath].
Defined.

(** C9: the colour of every need type and of every extra link is a number
    sign followed by six hexadecimal digits. *)
Theorem display_colors_hex :
  Forall (λ r, ∃ c, field "color" r = Some c ∧ is_hex_color c = true)
    (py_items needs_types)
  ∧ Forall (λ r, ∃ c, link_color r = Some c ∧ is_hex_color c = true)
      (py_items need_extra_links).
Proof.
  split; repeat constructor; eexists; (split; [reflexivity | by vm_compute]).
Qed.

(** C10: the values of the option "sreqtype" are the directive keywords of
    the need types titled Safety Requirement and DFA Requirement, "SR" and
    "DFA"; and every prefix of [needs_types] ends with an underscore. *)
Theorem sreqtype_matches_directives :
  (∃ vs, option_values "sreqtype" = Some vs
         ∧ vs = safety_directives
         ∧ ∀ x, x ∈ vs ↔ x = "SR" ∨ x = "DFA")
  ∧ Forall (λ r, ∃ p, field "prefix" r = Some (p ++ "_"))
      (py_items needs_types).
Proof.
  split.
  - exists ["SR"; "DFA"]. split; [reflexivity|]. split; [reflexivity|].
    intros x. rewrite !elem_of_cons, elem_of_nil. tauto.
  - assert (H : Forall (λ r, ∃ s, field "prefix" r = Some s
                             ∧ endswith s "_" = true) (py_items needs_types)).
    { repeat constructor; eexists; (split; [reflexivity | by vm_compute]). }
    eapply Forall_impl; [exact H|]. simpl.
    intros r (s & Hs & [p ->]%endswith_spec). by exists p.
Qed.

(** ** Dictionaries *)

Lemma dict_getitem_setitem_eq (k : string) (v : pyval) (d : list (string * pyval)) :
  dict_getitem k (dict_setitem k v d) = Some v.
Proof.
  induction d as [|[k' v'] d IH]; simpl.
  - by rewrite String.eqb_refl.
  - destruct (String.eqb k k') eqn:Hk; simpl; by rewrite Hk.
Qed.

Lemma dict_getitem_setitem_ne (k k' : string) (v : pyval) (d : list (string * pyval)) :
  k ≠ k' → dict_getitem k' (dict_setitem k v d) = dict_getitem k' d.
Proof.
  intros Hne. induction d as [|[k0 v0] d IH]; simpl.
  - apply String.eqb_neq in Hne. by rewrite String.eqb_sym, Hne.
  - destruct (String.eqb k k0) eqn:Hk; simpl; [|by rewrite IH].
    apply String.eqb_eq in Hk as <-.
    apply String.eqb_neq in Hne. by rewrite String.eqb_sym, Hne.
Qed.

Lemma dict_setitem_keys (k : string) (v : pyval) (d : list (string * pyval)) :
  (dict_setitem k v d).*1 = if decide (k ∈ d.*1) then d.*1 else (d.*1 ++ [k])%list.
Proof.
  induction d as [|[k0 v0] d IH]; [done|].
  cbn [dict_setitem]. destruct (String.eqb k k0) eqn:Hk; rewrite !fmap_cons; cbn [fst].
  - apply String.eqb_eq in Hk as <-. rewrite decide_True; [done | left].
  - apply String.eqb_neq in Hk. rewrite IH.
    destruct (decide (k ∈ d.*1)) as [Hin|Hin].
    + rewrite decide_True; [done | by right].
    + rewrite decide_False; [done|]. by intros [?|?]%elem_of_cons.
Qed.

(** X6: a dictionary display gives, for a key, the value written last for it,
    and nothing for a key that was not written. *)
Theorem dict_display_subscript (kvs : list (string * pyval)) (k : string) :
  subscript (dict_display kvs) k
  = (λ p, p.2.2) <$> list_find (λ kv, kv.1 = k) (reverse kvs).
Proof.
  unfold dict_display. simpl.
  induction kvs as [|[k' v] kvs IH] using rev_ind; [done|].
  rewrite foldl_app, reverse_snoc. simpl.
  destruct (decide (k' = k)) as [->|Hne].
  - apply dict_getitem_setitem_eq.
  - rewrite dict_getitem_setitem_ne by done. rewrite IH.
    by destruct (list_find _ (reverse kvs)) as [[i b]|].
Qed.

(** X7: a dictionary display never holds a key twice, however often the key was
    written, and holds exactly the keys that were written. *)
Theorem dict_display_keys (kvs : list (string * pyval)) :
  NoDup (keys (dict_display kvs)) ∧ ∀ k, k ∈ keys (dict_display kvs) ↔ k ∈ kvs.*1.
Proof.
  unfold dict_display. simpl.
  induction kvs as [|[k' v] kvs [IHnd IHin]] using rev_ind.
  - split; [constructor | done].
  - rewrite foldl_app. simpl. rewrite dict_setitem_keys, fmap_app. simpl.
    destruct (decide (k' ∈ _)) as [Hin|Hin].
    + split; [done|]. intros k. rewrite IHin, elem_of_app, list_elem_of_singleton.
      split; [by left | intros [?| ->]; [done | by apply IHin]].
    + split.
      * apply NoDup_app. split; [done|]. split; [|apply NoDup_singleton].
        intros x Hx ->%list_elem_of_singleton. done.
      * intros k. rewrite !elem_of_app, IHin. done.
Qed.

(** ** Reloading *)

Lemma reload_S (n : nat) (f : frame) : reload (S n) f = conf_py (reload n f).
Proof. reflexivity. Qed.

Lemma reload_getcwd (n : nat) (f : frame) :
  os_getcwd (rt (reload n f)) = os_getcwd (rt f).
Proof.
  induction n as [|n IH]; [done|]. by rewrite reload_S, conf_py_rt.
Qed.

Lemma conf_py_ns_lookup (f : frame) (x : string) :
  ns (conf_py f) !! x
  = match list_find (λ b, b.1 = x) (reverse conf_bindings) with
    | Some (_, b) => Some b.2
    | None => <["sys" := PModule "sys"]> (<["os" := PModule "os"]> (ns f)) !! x
    end.
Proof. by rewrite conf_py_ns, lookup_foldl_insert. Qed.

(** A second run of the body changes no binding of the first. *)
Lemma conf_py_ns_idemp (f : frame) : ns (conf_py (conf_py f)) = ns (conf_py f).
Proof.
  apply map_eq. intros x.
  rewrite (conf_py_ns_lookup (conf_py f)), (conf_py_ns_lookup f).
  destruct (list_find _ _) as [[i b]|] eqn:Hfind; [done|].
  destruct (decide ("sys" = x)) as [<-|Hsys]; [by rewrite !lookup_insert_eq|].
  rewrite !(lookup_insert_ne _ "sys") by done.
  destruct (decide ("os" = x)) as [<-|Hos]; [by rewrite !lookup_insert_eq|].
  rewrite !(lookup_insert_ne _ "os") by done.
  by rewrite conf_py_ns_lookup, Hfind, !lookup_insert_ne.
Qed.

(** X1: loading the file again, any number of times, changes nothing but the
    module search path: the namespace, the loaded modules and the working
    directory stay as the first load left them. *)
Theorem reload_stable (n : nat) (f : frame) :
  ns (reload (S n) f) = ns (conf_py f)
  ∧ sys_modules (rt (reload (S n) f)) = sys_modules (rt (conf_py f))
  ∧ os_getcwd (rt (reload (S n) f)) = os_getcwd (rt (conf_py f)).
Proof.
  induction n as [|n (IHns & IHmod & IHcwd)]; [done|].
  rewrite reload_S. split; [|split].
  - rewrite (conf_py_ns_determined (reload (S n) f) (conf_py f) IHns).
    apply conf_py_ns_idemp.
  - rewrite (conf_py_rt (reload (S n) f)). cbn [sys_modules]. rewrite IHmod.
    rewrite conf_py_rt. cbn [sys_modules].
    apply leibniz_equiv. intros y.
    rewrite !elem_of_union, !elem_of_singleton. tauto.
  - rewrite (conf_py_rt (reload (S n) f)). cbn [os_getcwd]. exact IHcwd.
Qed.

(** X2: each load puts the parent directory in front of the module search path
    once more: after [n] loads it stands there [n] times, before the
    entries that were there at the start. *)
Theorem reload_sys_path (n : nat) (f : frame) :
  sys_path (rt (reload n f))
  = (replicate n (posixpath.abspath (os_getcwd (rt f)) "..") ++ sys_path (rt f))%list.
Proof.
  induction n as [|n IH]; [done|].
  rewrite reload_S, conf_py_rt. simpl. by rewrite reload_getcwd, IH.
Qed.

(** ** The order of the assignments *)

Lemma assign_all_rt (bs : list (string * pyval)) (f : frame) :
  rt (assign_all bs f) = rt f.
Proof.
  unfold assign_all. revert f. induction bs as [|b bs IH]; intros f; [done|].
  simpl. by rewrite IH.
Qed.

Lemma assign_all_ns (bs : list (string * pyval)) (f : frame) :
  ns (assign_all bs f) = foldl (λ g b, <[b.1 := b.2]> g) (ns f) bs.
Proof.
  unfold assign_all. revert f. induction bs as [|b bs IH]; intros f; [done|].
  simpl. by rewrite IH.
Qed.

Lemma conf_py_with_bindings (f : frame) : conf_py_with conf_bindings f = conf_py f.
Proof. reflexivity. Qed.

(** Assignments to different names can change places. *)
Lemma foldl_insert_Permutation (bs bs' : list (string * pyval))
    (g : gmap string pyval) :
  NoDup bs.*1 → bs ≡ₚ bs' →
  foldl (λ g b, <[b.1 := b.2]> g) g bs = foldl (λ g b, <[b.1 := b.2]> g) g bs'.
Proof.
  intros Hnd Hperm. revert g Hnd.
  induction Hperm as [|b bs bs' Hperm IH|b1 b2 bs|bs1 bs2 bs3 H12 IH12 H23 IH23];
    intros g Hnd.
  - done.
  - simpl. apply IH. by apply NoDup_cons in Hnd as [_ Hnd].
  - simpl. f_equal. apply insert_insert_ne.
    rewrite !fmap_cons in Hnd. apply NoDup_cons in Hnd as [Hnotin _].
    intros Heq. apply Hnotin. rewrite <- Heq. left.
  - rewrite IH12 by done. apply IH23.
    by rewrite <- H12.
Qed.

Lemma conf_bindings_NoDup : NoDup conf_bindings.*1.
Proof. apply (bool_decide_unpack _). by vm_compute. Qed.

(** X3: the thirteen configuration names differ from one another, so the order
    in which the file assigns them does not matter: with the assignments in
    any other order the run ends in the same interpreter state and the same
    namespace. *)
Theorem conf_py_order_irrelevant (bs : list (string * pyval)) (f : frame) :
  bs ≡ₚ conf_bindings → conf_py_with bs f = conf_py f.
Proof.
  intros Hperm. rewrite <- conf_py_with_bindings.
  unfold conf_py_with, seq.
  set (f0 := sys_path_insert _ _ _).
  assert (Hns : ns (assign_all bs f0) = ns (assign_all conf_bindings f0)).
  { rewrite !assign_all_ns. symmetry.
    apply foldl_insert_Permutation; [apply conf_bindings_NoDup | done]. }
  assert (Hrt : rt (assign_all bs f0) = rt (assign_all conf_bindings f0)).
  { by rewrite !assign_all_rt. }
  destruct (assign_all bs f0), (assign_all conf_bindings f0).
  simpl in *. by subst.
Qed.

(** The file with its assignments in the opposite order. *)
Lemma conf_py_order_irrelevant_witness :
  reverse conf_bindings ≡ₚ conf_bindings
  ∧ conf_py_with (reverse conf_bindings) boot = conf_py boot.
Proof.
  split; [apply reverse_Permutation|].
  apply conf_py_order_irrelevant, reverse_Permutation.
Defined.

(** ** The entry put on the module search path *)

Lemma prefix_nil (r : string) : String.prefix "" r = true.
Proof. by destruct r. Qed.

Lemma isabs_cons (s : string) : posixpath.isabs s = true ↔ ∃ r, s = String "/" r.
Proof.
  unfold posixpath.isabs. destruct s as [|c r]; cbn [String.prefix].
  - split; [intros [=] | intros [? [=]]].
  - destruct (ascii_dec "/" c) as [Heq|Hne].
    + subst c. rewrite prefix_nil. split; [by eexists | done].
    + split; [intros [=] | intros [? [= -> _]]; done].
Qed.

Lemma normpath_isabs (q : string) :
  posixpath.isabs q = true → posixpath.isabs (posixpath.normpath q) = true.
Proof.
  intros [r ->]%isabs_cons. unfold posixpath.normpath.
  change (String.eqb (String "/" r) "") with false. cbv iota.
  replace (String.prefix "/" (String "/" r)) with true
    by (symmetry; apply isabs_cons; by eexists).
  cbv iota zeta.
  destruct (_ && _); simpl; apply isabs_cons; by eexists.
Qed.

Lemma join_isabs (a b : string) :
  posixpath.isabs a = true → posixpath.isabs (posixpath.join a b) = true.
Proof.
  intros Ha. unfold posixpath.join.
  destruct (posixpath.isabs b) eqn:Hb; [done|].
  apply isabs_cons in Ha as [r ->].
  destruct (_ || _); apply isabs_cons; by eexists.
Qed.

Lemma abspath_isabs (cwd p : string) :
  posixpath.isabs cwd = true → posixpath.isabs (posixpath.abspath cwd p) = true.
Proof.
  intros Hcwd. unfold posixpath.abspath. apply normpath_isabs.
  destruct (posixpath.isabs p) eqn:Hp; [done | by apply join_isabs].
Qed.

Lemma split_sep_no_sep (s : string) : no_sep s = true → posixpath.split_sep s = [s].
Proof.
  induction s as [|c s IH]; [done|]. cbn [no_sep posixpath.split_sep].
  intros [Hc Hs]%andb_true_iff. apply negb_true_iff in Hc. rewrite Hc.
  by rewrite IH.
Qed.

Lemma split_sep_app (s t : string) :
  no_sep s = true →
  posixpath.split_sep (s ++ String "/" t) = s :: posixpath.split_sep t.
Proof.
  induction s as [|c s IH]; [done|]. cbn [no_sep].
  intros [Hc Hs]%andb_true_iff. apply negb_true_iff in Hc.
  change (String c s ++ String "/" t) with (String c (s ++ String "/" t)).
  cbn [posixpath.split_sep]. rewrite Hc. by rewrite IH.
Qed.

Lemma split_sep_concat (comps : list string) :
  comps ≠ [] → Forall (λ c, no_sep c = true) comps →
  posixpath.split_sep (String.concat "/" comps) = comps.
Proof.
  induction comps as [|c comps IH]; [done|]. intros _ Hall.
  apply Forall_cons in Hall as [Hc Hall].
  destruct comps as [|d comps].
  - simpl. by apply split_sep_no_sep.
  - change (String.concat "/" (c :: d :: comps))
      with (c ++ String "/" (String.concat "/" (d :: comps))).
    rewrite split_sep_app by done. by rewrite IH.
Qed.

Lemma append_assoc (a b c : string) : (a ++ b) ++ c = a ++ (b ++ c).
Proof.
  induction a as [|x a IH]; [done|].
  change (String x ((a ++ b) ++ c) = String x (a ++ (b ++ c))). by rewrite IH.
Qed.

Lemma concat_cons (sep x : string) (xs : list string) :
  xs ≠ [] → String.concat sep (x :: xs) = x ++ sep ++ String.concat sep xs.
Proof. by destruct xs. Qed.

Lemma concat_snoc (l : list string) (a b : string) :
  String.concat "/" (l ++ [a]) ++ "/" ++ b = String.concat "/" (l ++ [a; b]).
Proof.
  induction l as [|x l IH]; [done|].
  rewrite <- !app_comm_cons.
  rewrite !concat_cons by (by destruct l).
  by rewrite !append_assoc, IH.
Qed.

Lemma endswith_no_sep (c : string) : no_sep c = true → endswith c "/" = false.
Proof.
  induction c as [|a c IH]; [done|]. cbn [no_sep endswith].
  intros [Ha Hc]%andb_true_iff. rewrite (IH Hc), orb_false_r.
  apply negb_true_iff in Ha. apply String.eqb_neq. intros [= -> _].
  by rewrite Ascii.eqb_refl in Ha.
Qed.

Lemma endswith_app_no_sep (s c : string) :
  c ≠ "" → no_sep c = true → endswith (s ++ c) "/" = false.
Proof.
  intros Hne Hc. induction s as [|a s IH]; [by apply endswith_no_sep|].
  change (String a s ++ c) with (String a (s ++ c)). cbn [endswith].
  rewrite IH, orb_false_r. apply String.eqb_neq. intros [= _ Hs].
  destruct s; [by subst | discriminate].
Qed.

Lemma concat_snoc_app (l : list string) (a : string) :
  ∃ s, String.concat "/" (l ++ [a]) = s ++ a.
Proof.
  induction l as [|x l [s IH]]; [by exists ""|].
  rewrite <- app_comm_cons, concat_cons by (by destruct l).
  rewrite IH. exists (x ++ "/" ++ s). by rewrite !append_assoc.
Qed.

Lemma plain_comp_inv (c : string) :
  plain_comp c = true →
  no_sep c = true ∧ String.eqb c "" = false ∧ String.eqb c "." = false
  ∧ String.eqb c ".." = false.
Proof.
  unfold plain_comp. rewrite !andb_true_iff, !negb_true_iff. tauto.
Qed.

Lemma normpath_step_plain (i : nat) (st : list string) (c : string) :
  plain_comp c = true → posixpath.normpath_step i st c = c :: st.
Proof.
  intros (_ & H1 & H2 & H3)%plain_comp_inv. unfold posixpath.normpath_step.
  by rewrite H1, H2, H3.
Qed.

Lemma foldl_normpath_step_plain (i : nat) (comps st : list string) :
  Forall (λ c, plain_comp c = true) comps →
  foldl (posixpath.normpath_step i) st comps = (rev comps ++ st)%list.
Proof.
  intros Hall. revert st. induction Hall as [|c comps Hc _ IH]; intros st; [done|].
  simpl. rewrite normpath_step_plain by done. rewrite IH.
  by rewrite <- app_assoc.
Qed.

Lemma concat_not_isabs (c : string) (l : list string) :
  plain_comp c = true → posixpath.isabs (String.concat "/" (c :: l)) = false.
Proof.
  intros (Hsep & Hne & _)%plain_comp_inv.
  destruct (posixpath.isabs _) eqn:Habs; [|done].
  apply isabs_cons in Habs as [r Hr].
  destruct c as [|a c]; [done|].
  assert (a = "/"%char) as ->.
  { destruct l; simpl in Hr; by injection Hr. }
  done.
Qed.

Lemma abspath_parent_dir (comps : list string) (name : string) :
  Forall (λ c, plain_comp c = true) comps →
  plain_comp name = true →
  posixpath.abspath (abs_path_of (comps ++ [name])) ".." = abs_path_of comps.
Proof.
  intros Hcomps Hname.
  pose proof (plain_comp_inv _ Hname) as (Hsep & Hne & _ & Hdd).
  unfold posixpath.abspath, abs_path_of.
  change (posixpath.isabs "..") with false. cbv iota.
  unfold posixpath.join. change (posixpath.isabs "..") with false. cbv iota.
  assert (Hend : endswith ("/" ++ String.concat "/" (comps ++ [name])) "/" = false).
  { destruct (concat_snoc_app comps name) as [s ->].
    rewrite <- append_assoc. apply endswith_app_no_sep; [|done].
    intros ->. done. }
  rewrite Hend. change (String.eqb ("/" ++ _) "") with false. cbv iota. simpl orb. cbv iota.
  rewrite append_assoc, concat_snoc.
  set (L := (comps ++ [name; ".."])%list).
  assert (HL : Forall (λ c, no_sep c = true) L).
  { apply Forall_app. split.
    - eapply Forall_impl; [exact Hcomps|]. intros c Hc. by apply plain_comp_inv in Hc as [? _].
    - by repeat constructor. }
  assert (Hhd : posixpath.isabs (String.concat "/" L) = false).
  { subst L. destruct Hcomps as [|c comps Hc Hcomps]; by apply concat_not_isabs. }
  unfold posixpath.normpath.
  change (String.eqb ("/" ++ String.concat "/" L) "") with false. cbv iota.
  change ("/" ++ String.concat "/" L) with (String "/" (String.concat "/" L)).
  replace (String.prefix "/" (String "/" (String.concat "/" L))) with true
    by (symmetry; apply isabs_cons; by eexists).
  replace (String.prefix "//" (String "/" (String.concat "/" L))) with false
    by (symmetry; exact Hhd).
  cbv iota zeta. simpl andb. cbv iota.
  change (posixpath.split_sep (String "/" (String.concat "/" L)))
    with ("" :: posixpath.split_sep (String.concat "/" L)).
  rewrite split_sep_concat; [| subst L; by destruct comps | exact HL].
  subst L. cbn [foldl]. change (posixpath.normpath_step 1 [] "") with (@nil string).
  rewrite foldl_app, (foldl_normpath_step_plain 1 comps []) by done.
  cbn [foldl]. rewrite (normpath_step_plain 1 _ name) by done.
  rewrite app_nil_r.
  assert (Hpop : posixpath.normpath_step 1 (name :: rev comps) ".." = rev comps).
  { unfold posixpath.normpath_step. simpl.
    rewrite bool_decide_eq_false_2; [done|].
    intros [= ->]. done. }
  rewrite Hpop, rev_involutive. reflexivity.
Qed.

(** X4: whatever the working directory, as long as it is an absolute path (as
    [os.getcwd] gives it), the entry that the run puts first on the module
    search path is an absolute path. *)
Theorem conf_py_inserts_absolute (f : frame) :
  posixpath.isabs (os_getcwd (rt f)) = true →
  ∃ p, head (sys_path (rt (conf_py f))) = Some p ∧ posixpath.isabs p = true.
Proof.
  intros Hcwd. rewrite conf_py_rt. simpl. eexists. split; [reflexivity|].
  by apply abspath_isabs.
Qed.

Lemma conf_py_inserts_absolute_witness :
  posixpath.isabs (os_getcwd (rt boot)) = true
  ∧ ∃ p, head (sys_path (rt (conf_py boot))) = Some p ∧ posixpath.isabs p = true.
Proof.
  assert (H : posixpath.isabs (os_getcwd (rt boot)) = true) by reflexivity.
  split; [exact H|]. exact (conf_py_inserts_absolute boot H).
Defined.

(** X5: run in a directory [/c1/.../cn/name], the body puts the parent directory
    [/c1/.../cn] first on the module search path; run in a directory
    [/name] directly under the root, it puts the root there. *)
Theorem conf_py_inserts_parent (f : frame) (comps : list string) (name : string) :
  Forall (λ c, plain_comp c = true) comps →
  plain_comp name = true →
  os_getcwd (rt f) = abs_path_of (comps ++ [name]) →
  head (sys_path (rt (conf_py f))) = Some (abs_path_of comps).
Proof.
  intros Hcomps Hname Hcwd. rewrite conf_py_rt. simpl.
  by rewrite Hcwd, abspath_parent_dir.
Qed.

(** The project of [boot]: the run in [.../ExpoAssistent/source] puts
    [.../ExpoAssistent] first. *)
Lemma conf_py_inserts_parent_witness :
  os_getcwd (rt boot)
    = abs_path_of (["home"; "sam"; "fsGaze"; "demoProject"; "ExpoAssistent"] ++ ["source"])
  ∧ head (sys_path (rt (conf_py boot)))
    = Some "/home/sam/fsGaze/demoProject/ExpoAssistent".
Proof.
  split; [reflexivity|].
  apply (conf_py_inserts_parent boot
           ["home"; "sam"; "fsGaze"; "demoProject"; "ExpoAssistent"] "source").
  - repeat constructor.
  - reflexivity.
  - reflexivity.
Defined.

(** ** Records as written *)

Lemma dict_setitem_fresh (k : string) (v : pyval) (d : list (string * pyval)) :
  k ∉ d.*1 → dict_setitem k v d = (d ++ [(k, v)])%list.
Proof.
  induction d as [|[k0 v0] d IH]; [done|].
  rewrite fmap_cons. cbn [fst dict_setitem].
  intros [Hne Hnotin]%not_elem_of_cons.
  apply String.eqb_neq in Hne. rewrite Hne. by rewrite IH.
Qed.

Lemma foldl_dict_setitem_distinct (kvs acc : list (string * pyval)) :
  NoDup ((acc ++ kvs)%list).*1 →
  foldl (λ d kv, dict_setitem kv.1 kv.2 d) acc kvs = (acc ++ kvs)%list.
Proof.
  revert acc. induction kvs as [|[k v] kvs IH]; intros acc Hnd.
  - by rewrite app_nil_r.
  - cbn [foldl fst snd]. rewrite dict_setitem_fresh.
    + rewrite IH; rewrite <- app_assoc; [done | exact Hnd].
    + rewrite fmap_app, fmap_cons in Hnd. apply NoDup_app in Hnd as (_ & Hdisj & _).
      intros Hin. apply (Hdisj k Hin). left.
Qed.

(** X8: a dictionary display whose keys differ from one another holds its items
    as they are written, in the written order. *)
Theorem dict_display_distinct (kvs : list (string * pyval)) :
  NoDup kvs.*1 → dict_display kvs = PDict kvs.
Proof.
  intros Hnd. unfold dict_display. f_equal.
  by apply (foldl_dict_setitem_distinct kvs []).
Qed.

(** The record of the extra link: its four keys differ, so it is held as
    written. *)
Lemma dict_display_distinct_witness :
  NoDup [ ("option", PStr "tutorial_required_by");
          ("incoming", PStr "requires");
          ("outgoing", PStr "required by");
          ("style", PStr "#00AA00") ].*1
  ∧ py_items need_extra_links
    = [ PDict [ ("option", PStr "tutorial_required_by");
                ("incoming", PStr "requires");
                ("outgoing", PStr "required by");
                ("style", PStr "#00AA00") ] ].
Proof.
  assert (Hnd : NoDup [ ("option", PStr "tutorial_required_by");
                        ("incoming", PStr "requires");
                        ("outgoing", PStr "required by");
                        ("style", PStr "#00AA00") ].*1).
  { apply (bool_decide_unpack _). by vm_compute. }
  split; [exact Hnd|].
  unfold need_extra_links, py_items.
  by rewrite (dict_display_distinct _ Hnd).
Defined.

(** X9: every entry of [needs_extra_options] and of [need_extra_links] gives a
    name, and the names of the options and of the links all differ. *)
Theorem custom_field_names_distinct :
  Forall is_Some custom_field_names ∧ NoDup custom_field_names.
Proof.
  split.
  - repeat constructor; by eexists.
  - apply (bool_decide_unpack _). by vm_compute.
Qed.
